(** * Falcon application logger (falcon/logger.h)

    A shallow embedding of [class Logger], its two scope guards
    [Logger::AutoEnd] and [Logger::BlockEnd], the stream operators declared
    after the class and the macros [LOG], [LOG_CATEGORY] and [LOG_BLOCK].

    The state that the C++ code keeps in [static thread_local] members and in
    the [LogSystem] base class is threaded explicitly: a value of type
    [Logger] below is the logger as seen by the code running on one thread,
    and the functions are the steps that this thread takes one after the
    other. *)

From Stdlib Require Import ZArith String List Bool Lia DecimalString.
Import ListNotations.

Local Open Scope Z_scope.
Local Open Scope list_scope.

(** ** Levels *)

(** [using LOGLEVEL = LogSystem::LEVEL]. The header compares levels with the
    built-in [>=], also against the integer [LLDISABLE], so a level is
    modelled by its integer value. *)
Definition LOGLEVEL := Z.

(** [constexpr auto LLDISABLE = -1;] *)
Definition LLDISABLE : Z := -1.

(** Modelled from the spec: the enumerators of [LogSystem::LEVEL], declared
    in falcon/logsystem.h, which is not part of the sources at hand.  The
    levels are ordered CRITICAL, ERROR, WARN, INFO, DEBUG, TRACE, a lower
    value is more severe, TRACE is the most permissive one and the DISABLE
    sentinel lies below all of them. Only the concrete runs at the end of
    the file depend on these values; every general statement quantifies
    over an arbitrary integer level. *)
Definition LLCRIT  : LOGLEVEL := 0.
Definition LLERR   : LOGLEVEL := 1.
Definition LLWARN  : LOGLEVEL := 2.
Definition LLINFO  : LOGLEVEL := 3.
Definition LLDEBUG : LOGLEVEL := 4.
Definition LLTRACE : LOGLEVEL := 5.

(** ** Messages and the logger state *)

(** The five arguments of one call [log(file, line, level, category, text)]
    of the base class. *)
Record Message : Type := mkMessage {
  msg_file     : string;
  msg_line     : Z;
  msg_level    : LOGLEVEL;
  msg_category : string;
  msg_text     : string
}.

(** The first two fields belong to [LogSystem] and are shared by the whole
    process; the other six are the [static thread_local] members of
    [Logger], in the order of their declaration.  [m_composer] is a
    [std::ostringstream], represented by the characters it holds. *)
Record Logger : Type := mkLogger {
  level          : LOGLEVEL;      (* LogSystem::level(), run-time threshold *)
  dispatched     : list Message;  (* calls of LogSystem::log, oldest first  *)
  m_composer     : string;
  m_category     : string;
  m_tempCategory : string;
  m_msgFile      : string;
  m_msgLine      : Z;
  m_msgLevel     : LOGLEVEL
}.

(** [LOGGER.level(lvl)], the setter of the run-time threshold. *)
Definition set_level (lvl : LOGLEVEL) (L : Logger) : Logger :=
  mkLogger lvl (dispatched L) (m_composer L) (m_category L)
           (m_tempCategory L) (m_msgFile L) (m_msgLine L) (m_msgLevel L).

(** Modelled from the spec: [LogSystem::log], declared in
    falcon/logsystem.h, which is not part of the sources at hand.  Handing a
    message to the dispatcher enqueues it and returns; the queue keeps the
    messages in the order in which they were handed over. *)
Definition log (file : string) (line : Z) (lvl : LOGLEVEL)
           (cat text : string) (L : Logger) : Logger :=
  mkLogger (level L)
           (dispatched L ++ [mkMessage file line lvl cat text])
           (m_composer L) (m_category L) (m_tempCategory L)
           (m_msgFile L) (m_msgLine L) (m_msgLevel L).

Definition setCategory (category : string) (L : Logger) : Logger :=
  mkLogger (level L) (dispatched L) (m_composer L) category
           (m_tempCategory L) (m_msgFile L) (m_msgLine L) (m_msgLevel L).

Definition setTempCategory (category : string) (L : Logger) : Logger :=
  mkLogger (level L) (dispatched L) (m_composer L) (m_category L)
           category (m_msgFile L) (m_msgLine L) (m_msgLevel L).

Definition getCategory (L : Logger) : string := m_category L.

Definition setLevel (lvl : LOGLEVEL) (L : Logger) : Logger :=
  mkLogger (level L) (dispatched L) (m_composer L) (m_category L)
           (m_tempCategory L) (m_msgFile L) (m_msgLine L) lvl.

Definition setFile (file : string) (L : Logger) : Logger :=
  mkLogger (level L) (dispatched L) (m_composer L) (m_category L)
           (m_tempCategory L) file (m_msgLine L) (m_msgLevel L).

Definition setLine (line : Z) (L : Logger) : Logger :=
  mkLogger (level L) (dispatched L) (m_composer L) (m_category L)
           (m_tempCategory L) (m_msgFile L) line (m_msgLevel L).

(** [m_composer.clear(); m_composer.str("")] with an empty literal. *)
Definition readyStream (L : Logger) : Logger :=
  mkLogger (level L) (dispatched L) EmptyString (m_category L)
           (m_tempCategory L) (m_msgFile L) (m_msgLine L) (m_msgLevel L).

(** [std::string::empty]. *)
Definition empty (s : string) : bool :=
  match s with
  | EmptyString => true
  | String _ _ => false
  end.

Definition commit (L : Logger) : Logger :=
  if empty (m_tempCategory L) then
    readyStream
      (log (m_msgFile L) (m_msgLine L) (m_msgLevel L)
           (m_category L) (m_composer L) L)
  else
    readyStream
      (setTempCategory EmptyString
         (log (m_msgFile L) (m_msgLine L) (m_msgLevel L)
              (m_tempCategory L) (m_composer L) L)).

(** ** Values that can be streamed *)

(** [Logger::operator<<] is a template over every type [T] for which
    [std::ostream << v] exists.  The class below is that interface; the
    instances are the renderings of the standard stream with its default
    formatting flags. *)
Class Streamable (T : Type) : Type := text_of : T -> string.

#[export] Instance Streamable_string : Streamable string := fun s => s.

#[export] Instance Streamable_int : Streamable Z :=
  fun z => NilZero.string_of_int (Z.to_int z).

#[export] Instance Streamable_bool : Streamable bool :=
  fun b => if b then "1"%string else "0"%string.

(** The heart of the composition: [m_composer << v]. *)
Definition Logger_shl {T : Type} `{Streamable T} (v : T) (L : Logger)
  : Logger :=
  mkLogger (level L) (dispatched L) (m_composer L ++ text_of v)%string
           (m_category L) (m_tempCategory L) (m_msgFile L) (m_msgLine L)
           (m_msgLevel L).

(** [struct category_manipulator] and [Logger::msg_cat]. *)
Record category_manipulator : Type := mk_category_manipulator {
  m_cat : string
}.

Definition msg_cat (category : string) : category_manipulator :=
  mk_category_manipulator category.

(** ** Pointers to the logger *)

(** The guards hold a [Logger*] that is either null or the address of the
    singleton [Logger::instance()]. *)
Inductive LoggerPtr : Type :=
| nullptr
| instance.

Definition is_set (p : LoggerPtr) : bool :=
  match p with
  | nullptr => false
  | instance => true
  end.

(** ** The two guards and the operands of a chain *)

(** [m_obj] and the member [m_category], which no code reads or writes. *)
Record AutoEnd : Type := mkAutoEnd {
  ae_obj      : LoggerPtr;
  ae_category : string
}.

(** [Logger::BlockEnd] has the pointer only. *)
Record BlockEnd : Type := mkBlockEnd {
  be_obj : LoggerPtr
}.

(** One operand of a chain [LOG(lvl) << a << b << ...]: a streamable
    value, taken by the template operator, or a category manipulator, taken
    by the overload for [category_manipulator]. *)
Inductive operand : Type :=
| put {T : Type} `{Streamable T} (v : T)
| put_cat (cat : category_manipulator).

(** ** Code that may throw or go wrong *)

(** How a piece of code ends: it returns a value, an exception leaves it, it
    runs into undefined behaviour, or the bound on the number of loop tests
    is used up.  The first two carry the logger as the code left it. *)
Inductive outcome (A : Type) : Type :=
| Returns (a : A) (L : Logger)
| Throws (L : Logger)
| Undefined
| OutOfFuel.

Arguments Returns {A} a L.
Arguments Throws {A} L.
Arguments Undefined {A}.
Arguments OutOfFuel {A}.

Definition M (A : Type) : Type := Logger -> outcome A.

Definition ret {A : Type} (a : A) : M A := fun L => Returns a L.

Definition bind {A B : Type} (c : M A) (k : A -> M B) : M B :=
  fun L =>
    match c L with
    | Returns a L1 => k a L1
    | Throws L1 => Throws L1
    | Undefined => Undefined
    | OutOfFuel => OutOfFuel
    end.

(** The category that [commit] puts on the message. *)
Definition effective_category (L : Logger) : string :=
  if empty (m_tempCategory L) then m_category L else m_tempCategory L.

(** ** Block bodies that compose a message *)

(** The statements a block body uses to build its message through [LOGGER],
    and [throw]. *)
Inductive body_stmt : Type :=
| b_shl {T : Type} `{Streamable T} (v : T)   (* LOGGER << v;               *)
| b_setTempCategory (cat : string)           (* LOGGER.setTempCategory(c); *)
| b_setCategory (cat : string)               (* LOGGER.setCategory(c);     *)
| b_throw.                                   (* throw ...;                 *)

Fixpoint run_body (b : list body_stmt) : M unit :=
  fun L =>
    match b with
    | [] => Returns tt L
    | b_shl v :: rest => run_body rest (Logger_shl v L)
    | b_setTempCategory cat :: rest => run_body rest (setTempCategory cat L)
    | b_setCategory cat :: rest => run_body rest (setCategory cat L)
    | b_throw :: _ => Throws L
    end.

(** ** What a chain of operands amounts to *)

(** The text that the values of a chain add to the composer. *)
Fixpoint chain_text (chain : list operand) : string :=
  match chain with
  | [] => EmptyString
  | put v :: rest => (text_of v ++ chain_text rest)%string
  | put_cat _ :: rest => chain_text rest
  end.

(** The temporary category after a chain that started with [pending]. *)
Fixpoint chain_category (pending : string) (chain : list operand) : string :=
  match chain with
  | [] => pending
  | put _ :: rest => chain_category pending rest
  | put_cat cat :: rest => chain_category (m_cat cat) rest
  end.

(** The categories named by the manipulators of a chain, in order. *)
Fixpoint overrides (chain : list operand) : list string :=
  match chain with
  | [] => []
  | put _ :: rest => overrides rest
  | put_cat cat :: rest => m_cat cat :: overrides rest
  end.

(** One [LOG] statement of a program text: its level, the file and line it
    stands on, and its chain. *)
Record statement : Type := mkStatement {
  st_level : LOGLEVEL;
  st_file  : string;
  st_line  : Z;
  st_chain : list operand
}.

(** ** A thread that has not logged yet *)

(** The header documents TRACE as the default run-time level; the strings
    and the stream start empty. *)
Definition fresh : Logger :=
  mkLogger LLTRACE [] EmptyString EmptyString EmptyString EmptyString 0 0.

(** The same thread after a [LOG_BLOCK(LLINFO)] at net.cpp:10 whose body
    streamed the text [partial] and then threw. *)
Definition stale : Logger :=
  mkLogger LLTRACE [] "partial" EmptyString EmptyString "net.cpp" 10 LLINFO.

(** ** Blocks and statements side by side *)

(** The body statement that does through [LOGGER] what an operand does
    through a guard: [LOGGER << v;] for a value and
    [LOGGER.setTempCategory(c);] for a manipulator. *)
Definition body_of_operand (o : operand) : body_stmt :=
  match o with
  | put v => b_shl v
  | put_cat cat => b_setTempCategory (m_cat cat)
  end.

Definition body_of_chain (chain : list operand) : list body_stmt :=
  map body_of_operand chain.

(** A thread between two statements: nothing composed and no override
    pending. *)
Definition idle (L : Logger) : Prop :=
  m_composer L = EmptyString /\ m_tempCategory L = EmptyString.

(** The category under which [commit] files a message after a chain, on a
    thread whose persistent category is [cat] and whose temporary category
    was [pending] before the chain. *)
Definition chosen_category (cat pending : string) (chain : list operand)
  : string :=
  if empty (chain_category pending chain) then cat
  else chain_category pending chain.

(** The message of an open statement that starts on an idle thread with the
    persistent category [cat]. *)
Definition message_of (cat : string) (s : statement) : Message :=
  mkMessage (st_file s) (st_line s) (st_level s)
            (chosen_category cat EmptyString (st_chain s))
            (chain_text (st_chain s)).

Section BuildTime.

(** The macro [FALCON_MIN_LOG_LEVEL], fixed when the program is compiled.
    Its default is [LLTRACE]. *)
Variable FALCON_MIN_LOG_LEVEL : Z.

(** The condition [FALCON_MIN_LOG_LEVEL >= lvl && obj.level() >= lvl], which
    the header spells out in both constructors and in [LOG_BLOCK]. *)
Definition gate (lvl : LOGLEVEL) (L : Logger) : bool :=
  (FALCON_MIN_LOG_LEVEL >=? lvl) && (level L >=? lvl).

(** ** [Logger::AutoEnd] *)

(** The constructor returns the new guard and the logger it may have
    written to. *)
Definition AutoEnd_ctor (file : string) (line : Z) (lvl : LOGLEVEL)
           (L : Logger) : AutoEnd * Logger :=
  if gate lvl L then
    (mkAutoEnd instance EmptyString,
     setLevel lvl (setLine line (setFile file L)))
  else
    (mkAutoEnd nullptr EmptyString, L).

Definition AutoEnd_dtor (aes : AutoEnd) (L : Logger) : Logger :=
  if is_set (ae_obj aes) then commit L else L.

Definition doLog (aes : AutoEnd) : bool := is_set (ae_obj aes).

(** [operator<<(const Logger::AutoEnd&, T&&)]. *)
Definition AutoEnd_shl {T : Type} `{Streamable T} (aes : AutoEnd) (arg : T)
           (L : Logger) : Logger :=
  if doLog aes then Logger_shl arg L else L.

(** [operator<<(const Logger::AutoEnd&&, Logger::category_manipulator&&)].
    Its first parameter is an rvalue reference: overload resolution picks
    it when the left operand is the temporary guard itself, or the
    reference returned by an earlier [<<] once it is cast back to an rvalue
    with [std::move]. *)
Definition AutoEnd_shl_cat (aes : AutoEnd) (cat : category_manipulator)
           (L : Logger) : Logger :=
  if doLog aes then setTempCategory (m_cat cat) L else L.

Definition shl_operand (aes : AutoEnd) (L : Logger) (o : operand) : Logger :=
  match o with
  | put v => AutoEnd_shl aes v L
  | put_cat cat => AutoEnd_shl_cat aes cat L
  end.

(** The macro [LOG(__LVL)] followed by a chain of operands and the end of
    the full expression, where the temporary guard is destroyed.  [file] and
    [line] stand for [__FILE__] and [__LINE__]. *)
Definition LOG (lvl : LOGLEVEL) (file : string) (line : Z)
           (chain : list operand) (L : Logger) : Logger :=
  let (aes, L1) := AutoEnd_ctor file line lvl L in
  AutoEnd_dtor aes (fold_left (shl_operand aes) chain L1).

(** The macro [LOG_CATEGORY(__CAT)]. *)
Definition LOG_CATEGORY (cat : string) (L : Logger) : Logger :=
  if FALCON_MIN_LOG_LEVEL >=? level L then setCategory cat L else L.

(** ** [Logger::BlockEnd] *)

Definition BlockEnd_ctor (file : string) (line : Z) (lvl : LOGLEVEL)
           (L : Logger) : BlockEnd * Logger :=
  if gate lvl L then
    (mkBlockEnd instance, setLevel lvl (setLine line (setFile file L)))
  else
    (mkBlockEnd nullptr, L).

(** [void complete() {m_obj->commit(); m_obj = nullptr;}].  The member call
    goes through [m_obj] without a test; through a null pointer it is
    undefined behaviour. *)
Definition BlockEnd_complete (b : BlockEnd) : M BlockEnd :=
  fun L =>
    match be_obj b with
    | instance => Returns (mkBlockEnd nullptr) (commit L)
    | nullptr => Undefined
    end.

(** [operator bool]. *)
Definition BlockEnd_bool (b : BlockEnd) : bool := is_set (be_obj b).

(** ** The [for] statement *)

(** [for (init; cond; step) body] over a loop variable of type [S], after
    [init] has run.  [fuel] bounds the number of times the condition is
    tested.  The result is the loop variable at exit together with the
    number of times the body was entered, counted from [n]. *)
Fixpoint for_loop {S : Type} (fuel : nat) (cond : S -> Logger -> bool)
         (body : M unit) (step : S -> M S) (s : S) (n : nat)
  : M (S * nat) :=
  fun L =>
    match fuel with
    | O => OutOfFuel
    | Datatypes.S fuel' =>
        if cond s L then
          bind body (fun _ =>
          bind (step s) (fun s' =>
          for_loop fuel' cond body step s' (Datatypes.S n))) L
        else Returns (s, n) L
    end.

(** The macro [LOG_BLOCK(lvl)] followed by its body. *)
Definition LOG_BLOCK (fuel : nat) (lvl : LOGLEVEL) (file : string)
           (line : Z) (body : M unit) : M (BlockEnd * nat) :=
  fun L =>
    let (ender, L1) := BlockEnd_ctor file line lvl L in
    for_loop fuel (fun e L' => gate lvl L' && BlockEnd_bool e)
             body BlockEnd_complete ender O L1.

(** [LOG] statements executed one after the other on the same thread. *)
Definition run_statements (prog : list statement) (L : Logger) : Logger :=
  fold_left (fun L' s => LOG (st_level s) (st_file s) (st_line s)
                             (st_chain s) L') prog L.

(** The statements of a program whose guard is open under the threshold of
    [L]. *)
Definition open_statements (prog : list statement) (L : Logger)
  : list statement :=
  filter (fun s => gate (st_level s) L) prog.

(** A named guard with a whole [LOG] statement between two of its chains:
    [{ Logger::AutoEnd g(LOGGER, file, line, lvl); g << before...;
       LOG(inner) << ...; g << after...; }]. *)
Definition interleaved (lvl : LOGLEVEL) (file : string) (line : Z)
           (before : list operand) (inner : statement)
           (after : list operand) (L : Logger) : Logger :=
  let (g, L1) := AutoEnd_ctor file line lvl L in
  let L2 := fold_left (shl_operand g) before L1 in
  let L3 := LOG (st_level inner) (st_file inner) (st_line inner)
                (st_chain inner) L2 in
  AutoEnd_dtor g (fold_left (shl_operand g) after L3).

(** ** The [for] statement with every way out of its body *)

(** How the body of a loop hands control back: it reaches its end, it runs
    [continue], or it leaves the loop with [break]. *)
Inductive exit : Type :=
| reaches_end
| continue_
| break_.

(** The [for] statement once more, for a body that may use the loop variable
    and may end in each of these ways.  After [break] neither the step nor
    the condition runs again. *)
Fixpoint for_statement {S : Type} (fuel : nat) (cond : S -> Logger -> bool)
         (body : S -> M (exit * S)) (step : S -> M S) (s : S) (n : nat)
  : M (S * nat) :=
  fun L =>
    match fuel with
    | O => OutOfFuel
    | Datatypes.S fuel' =>
        if cond s L then
          match body s L with
          | Returns (break_, s1) L1 => Returns (s1, Datatypes.S n) L1
          | Returns (_, s1) L1 =>
              bind (step s1)
                   (fun s2 => for_statement fuel' cond body step s2
                                            (Datatypes.S n)) L1
          | Throws L1 => Throws L1
          | Undefined => Undefined
          | OutOfFuel => OutOfFuel
          end
        else Returns (s, n) L
    end.

(** [LOG_BLOCK(lvl)] followed by such a body; the body is given the guard
    [__ender], which is in its scope. *)
Definition LOG_BLOCK_any (fuel : nat) (lvl : LOGLEVEL) (file : string)
           (line : Z) (body : BlockEnd -> M (exit * BlockEnd))
  : M (BlockEnd * nat) :=
  fun L =>
    let (ender, L1) := BlockEnd_ctor file line lvl L in
    for_statement fuel (fun e L' => gate lvl L' && BlockEnd_bool e)
                  body BlockEnd_complete ender O L1.

(** A body that leaves the guard alone and does not jump, as a body of the
    general kind. *)
Definition plain_body (b : M unit) : BlockEnd -> M (exit * BlockEnd) :=
  fun e => bind b (fun _ => ret (reaches_end, e)).

(** * Properties *)

(** ** Strings *)

Lemma append_assoc (a b c : string) :
  ((a ++ b) ++ c)%string = (a ++ (b ++ c))%string.
Proof.
  induction a as [|ch a IH]; simpl.
  - reflexivity.
  - now rewrite IH.
Qed.

Lemma append_nil_r (a : string) : (a ++ "")%string = a.
Proof.
  induction a as [|ch a IH]; simpl; [reflexivity | now rewrite IH].
Qed.

Lemma empty_true (s : string) : empty s = true <-> s = EmptyString.
Proof.
  destruct s; simpl; split; intros E; try reflexivity; discriminate E.
Qed.

(** ** Setters and [commit], field by field *)

Lemma commit_eq (L : Logger) :
  commit L =
  mkLogger (level L)
           (dispatched L ++
              [mkMessage (m_msgFile L) (m_msgLine L) (m_msgLevel L)
                         (effective_category L) (m_composer L)])
           EmptyString (m_category L) EmptyString
           (m_msgFile L) (m_msgLine L) (m_msgLevel L).
Proof.
  unfold commit, effective_category.
  destruct (empty (m_tempCategory L)) eqn:E;
    unfold readyStream, setTempCategory, log; cbn.
  - apply empty_true in E. now rewrite E.
  - reflexivity.
Qed.

Lemma Logger_eta (L : Logger) :
  L = mkLogger (level L) (dispatched L) (m_composer L) (m_category L)
               (m_tempCategory L) (m_msgFile L) (m_msgLine L) (m_msgLevel L).
Proof. now destruct L. Qed.

(** ** Chains on an open and on a closed guard *)

Lemma chain_category_last (chain : list operand) (pending : string) :
  chain_category pending chain = last (overrides chain) pending.
Proof.
  revert pending.
  induction chain as [|o chain IH]; intros pending; [reflexivity|].
  destruct o as [T HT v | cat]; cbn [chain_category overrides].
  - apply IH.
  - rewrite IH. destruct (overrides chain) as [|c cs] eqn:E.
    + reflexivity.
    + cbn [last]. clear. revert c.
      induction cs as [|c' cs IHcs]; intros c; [reflexivity|].
      cbn [last] in *. apply IHcs.
Qed.

Lemma chain_open (aes : AutoEnd) (chain : list operand) (L : Logger) :
  doLog aes = true ->
  fold_left (shl_operand aes) chain L =
  mkLogger (level L) (dispatched L) (m_composer L ++ chain_text chain)%string
           (m_category L) (chain_category (m_tempCategory L) chain)
           (m_msgFile L) (m_msgLine L) (m_msgLevel L).
Proof.
  intros Hopen. revert L.
  induction chain as [|o chain IH]; intros L.
  - cbn. rewrite append_nil_r. apply Logger_eta.
  - cbn [fold_left]. rewrite IH.
    destruct o as [T HT v | cat];
      unfold shl_operand, AutoEnd_shl, AutoEnd_shl_cat; rewrite Hopen; cbn.
    + now rewrite append_assoc.
    + reflexivity.
Qed.

Lemma shl_operand_closed (aes : AutoEnd) (o : operand) (L : Logger) :
  doLog aes = false -> shl_operand aes L o = L.
Proof.
  intros Hclosed.
  destruct o as [T HT v | cat];
    unfold shl_operand, AutoEnd_shl, AutoEnd_shl_cat;
    now rewrite Hclosed.
Qed.

Lemma chain_closed (aes : AutoEnd) (chain : list operand) (L : Logger) :
  doLog aes = false ->
  fold_left (shl_operand aes) chain L = L.
Proof.
  intros Hclosed.
  induction chain as [|o chain IH]; [reflexivity|].
  cbn [fold_left]. now rewrite shl_operand_closed.
Qed.

Lemma gate_spec (lvl : LOGLEVEL) (L : Logger) :
  gate lvl L = true <-> FALCON_MIN_LOG_LEVEL >= lvl /\ level L >= lvl.
Proof.
  unfold gate. rewrite andb_true_iff, !Z.geb_le. lia.
Qed.

(** The whole effect of an open [LOG] statement. *)
Lemma LOG_open (lvl : LOGLEVEL) (file : string) (line : Z)
      (chain : list operand) (L : Logger) :
  gate lvl L = true ->
  LOG lvl file line chain L =
  mkLogger (level L)
           (dispatched L ++
              [mkMessage file line lvl
                 (effective_category
                    (setTempCategory
                       (chain_category (m_tempCategory L) chain) L))
                 (m_composer L ++ chain_text chain)%string])
           EmptyString (m_category L) EmptyString file line lvl.
Proof.
  intros Hgate. unfold LOG, AutoEnd_ctor.
  rewrite Hgate. unfold AutoEnd_dtor. cbn [ae_obj is_set].
  rewrite chain_open by reflexivity.
  rewrite commit_eq. reflexivity.
Qed.

Lemma LOG_closed (lvl : LOGLEVEL) (file : string) (line : Z)
      (chain : list operand) (L : Logger) :
  gate lvl L = false ->
  LOG lvl file line chain L = L.
Proof.
  intros Hgate. unfold LOG, AutoEnd_ctor.
  rewrite Hgate. unfold AutoEnd_dtor. cbn [ae_obj is_set].
  now rewrite chain_closed.
Qed.

(** ** Sequences of statements *)

Lemma LOG_m_category (lvl : LOGLEVEL) (file : string) (line : Z)
      (chain : list operand) (L : Logger) :
  m_category (LOG lvl file line chain L) = m_category L.
Proof.
  destruct (gate lvl L) eqn:Hgate.
  - now rewrite LOG_open.
  - now rewrite LOG_closed.
Qed.

Lemma run_statements_m_category (prog : list statement) (L : Logger) :
  m_category (run_statements prog L) = m_category L.
Proof.
  revert L. induction prog as [|s prog IH]; intros L; [reflexivity|].
  unfold run_statements in *. cbn [fold_left].
  rewrite IH. apply LOG_m_category.
Qed.

Lemma run_statements_categories (prog : list statement) (L : Logger) :
  m_tempCategory L = EmptyString ->
  Forall (fun s => overrides (st_chain s) = []) prog ->
  exists news : list Message,
    dispatched (run_statements prog L) = dispatched L ++ news /\
    Forall (fun m => msg_category m = m_category L) news.
Proof.
  revert L. induction prog as [|s prog IH]; intros L Hnone Hprog.
  - exists []. split; [now rewrite app_nil_r | constructor].
  - inversion Hprog as [|s' prog' Hs Hrest]; subst.
    unfold run_statements in *. cbn [fold_left].
    destruct (gate (st_level s) L) eqn:Hgate.
    + destruct (IH (LOG (st_level s) (st_file s) (st_line s) (st_chain s) L))
        as (news & Hd & Hall).
      * now rewrite LOG_open.
      * exact Hrest.
      * rewrite Hd. rewrite LOG_m_category in Hall.
        rewrite LOG_open by exact Hgate. cbn [dispatched].
        rewrite <- app_assoc. eexists. split; [reflexivity|].
        constructor; [|exact Hall]. cbn.
        unfold effective_category. cbn.
        now rewrite chain_category_last, Hs, Hnone.
    + rewrite LOG_closed by exact Hgate. now apply IH.
Qed.

(** ** Blocks *)

Lemma run_body_dispatched (stmts : list body_stmt) (L : Logger) :
  match run_body stmts L with
  | Returns _ L' | Throws L' => dispatched L' = dispatched L
  | _ => False
  end.
Proof.
  revert L. induction stmts as [|s stmts IH]; intros L; [reflexivity|].
  destruct s as [T HT v | cat | cat | ]; cbn [run_body].
  - specialize (IH (Logger_shl v L)).
    destruct (run_body stmts (Logger_shl v L)); exact IH.
  - specialize (IH (setTempCategory cat L)).
    destruct (run_body stmts (setTempCategory cat L)); exact IH.
  - specialize (IH (setCategory cat L)).
    destruct (run_body stmts (setCategory cat L)); exact IH.
  - reflexivity.
Qed.

Lemma LOG_BLOCK_open (fuel : nat) (lvl : LOGLEVEL) (file : string)
      (line : Z) (body : M unit) (L : Logger) :
  gate lvl L = true ->
  LOG_BLOCK (S fuel) lvl file line body L =
  bind body (fun _ =>
  bind (BlockEnd_complete (mkBlockEnd instance)) (fun e =>
  for_loop fuel (fun e' L' => gate lvl L' && BlockEnd_bool e')
           body BlockEnd_complete e 1%nat))
       (setLevel lvl (setLine line (setFile file L))).
Proof.
  intros Hgate. unfold LOG_BLOCK, BlockEnd_ctor. rewrite Hgate.
  cbn [for_loop].
  replace (gate lvl (setLevel lvl (setLine line (setFile file L))))
    with true by (symmetry; exact Hgate).
  reflexivity.
Qed.

(** C1.  A guard built by [AutoEnd]'s constructor for level [lvl] is open
    exactly when the build-time minimum and the run-time threshold are both
    at least [lvl]; when one of the two comparisons fails it is closed. *)
Theorem AutoEnd_open_iff (lvl : LOGLEVEL) (file : string) (line : Z)
        (L : Logger) :
  (doLog (fst (AutoEnd_ctor file line lvl L)) = true <->
   FALCON_MIN_LOG_LEVEL >= lvl /\ level L >= lvl) /\
  (doLog (fst (AutoEnd_ctor file line lvl L)) = false <->
   FALCON_MIN_LOG_LEVEL < lvl \/ level L < lvl).
Proof.
  unfold AutoEnd_ctor.
  destruct (gate lvl L) eqn:Hgate; cbn.
  - apply gate_spec in Hgate. split; split; intros H; try easy; lia.
  - assert (Hno : ~ (FALCON_MIN_LOG_LEVEL >= lvl /\ level L >= lvl)).
    { intros H. apply gate_spec in H. congruence. }
    split; split; intros H; try easy; lia.
Qed.

(** C7.  When the gate is false for [lvl], the guard that the constructor
    returns is closed and the logger is untouched; every operand applied to
    that guard, in whatever state, leaves the whole logger as it was (the
    composer included); its destructor commits nothing; and so the whole
    [LOG] statement leaves the logger, and the list of dispatched messages,
    unchanged. *)
Theorem closed_statement_is_noop (lvl : LOGLEVEL) (file : string) (line : Z)
        (L : Logger) :
  gate lvl L = false ->
  doLog (fst (AutoEnd_ctor file line lvl L)) = false /\
  snd (AutoEnd_ctor file line lvl L) = L /\
  (forall (o : operand) (L' : Logger),
      shl_operand (fst (AutoEnd_ctor file line lvl L)) L' o = L') /\
  (forall L' : Logger,
      AutoEnd_dtor (fst (AutoEnd_ctor file line lvl L)) L' = L') /\
  (forall chain : list operand, LOG lvl file line chain L = L).
Proof.
  intros Hgate. unfold AutoEnd_ctor. rewrite Hgate. cbn [fst snd].
  repeat split.
  - intros o L'. now apply shl_operand_closed.
  - intros chain. now apply LOG_closed.
Qed.

(** C4 (amended).  An open [LOG] statement hands exactly one message to the
    dispatcher, at the end of the statement.  Its text is what the thread's
    composer held when the statement began followed by the renderings of
    the appended values in the order of the chain, and the composer is empty
    afterwards.  So when the composer is empty at the start, as it is after
    every commit, the text is exactly the concatenation of the values. *)
Theorem open_statement_commits_once (lvl : LOGLEVEL) (file : string)
        (line : Z) (chain : list operand) (L : Logger) :
  gate lvl L = true ->
  exists m : Message,
    dispatched (LOG lvl file line chain L) = dispatched L ++ [m] /\
    msg_file m = file /\ msg_line m = line /\ msg_level m = lvl /\
    msg_text m = (m_composer L ++ chain_text chain)%string /\
    (m_composer L = EmptyString -> msg_text m = chain_text chain) /\
    m_composer (LOG lvl file line chain L) = EmptyString.
Proof.
  intros Hgate. rewrite LOG_open by exact Hgate. cbn.
  eexists. split; [reflexivity|]. cbn.
  repeat split. intros E. now rewrite E.
Qed.

(** C2 (amended).  In an open [LOG] statement whose chain applies one or
    more category manipulators, every manipulator replaces the temporary
    category, so the commit sees the one applied last: the message carries
    that category, or the thread's persistent category when the last one is
    the empty string. *)
Theorem last_override_wins (lvl : LOGLEVEL) (file : string) (line : Z)
        (chain : list operand) (L : Logger) :
  gate lvl L = true ->
  overrides chain <> [] ->
  dispatched (LOG lvl file line chain L) =
  dispatched L ++
    [mkMessage file line lvl
       (if empty (last (overrides chain) EmptyString)
        then m_category L
        else last (overrides chain) EmptyString)
       (m_composer L ++ chain_text chain)%string].
Proof.
  intros Hgate Hsome. rewrite LOG_open by exact Hgate. cbn.
  unfold effective_category. cbn.
  rewrite chain_category_last.
  destruct (overrides chain) as [|c cs]; [congruence|].
  assert (Hlast : forall d, last (c :: cs) d = last (c :: cs) EmptyString).
  { clear. revert c. induction cs as [|c' cs IH]; intros c d.
    - reflexivity.
    - change (last (c' :: cs) d = last (c' :: cs) EmptyString). apply IH. }
  now rewrite (Hlast (m_tempCategory L)).
Qed.

(** C5.  On a thread whose persistent category is [A], let an open statement
    apply exactly one category manipulator, naming a non-empty category [B],
    and let the next statement be open and apply none.  Then the two
    statements dispatch two messages, the first under [B] and the second
    under [A], and the temporary category is already empty when the first
    statement has ended. *)
Theorem temporary_override_lasts_one_commit
        (A B : string) (lvl1 lvl2 : LOGLEVEL) (file1 file2 : string)
        (line1 line2 : Z) (chain1 chain2 : list operand) (L : Logger) :
  m_category L = A ->
  gate lvl1 L = true ->
  gate lvl2 L = true ->
  overrides chain1 = [B] ->
  empty B = false ->
  overrides chain2 = [] ->
  m_tempCategory (LOG lvl1 file1 line1 chain1 L) = EmptyString /\
  dispatched (LOG lvl2 file2 line2 chain2 (LOG lvl1 file1 line1 chain1 L)) =
  dispatched L ++
    [mkMessage file1 line1 lvl1 B (m_composer L ++ chain_text chain1)%string;
     mkMessage file2 line2 lvl2 A (chain_text chain2)].
Proof.
  intros HA H1 H2 Hov1 HB Hov2.
  rewrite (LOG_open lvl1) by exact H1.
  split; [reflexivity|].
  rewrite LOG_open by exact H2. cbn.
  unfold effective_category. cbn.
  rewrite !chain_category_last, Hov1, Hov2. cbn [last empty].
  rewrite HB, HA, <- app_assoc. reflexivity.
Qed.

(** C10.  Setting the temporary category to the empty string and then
    committing dispatches the message under the persistent category and
    leaves the temporary category empty.  On a thread with no override
    pending, setting it to the empty string changes nothing at all, and a
    statement whose chain starts with the manipulator for the empty string
    does exactly what the statement without it does. *)
Theorem empty_override_is_no_override (L : Logger) :
  dispatched (commit (setTempCategory EmptyString L)) =
    dispatched L ++
      [mkMessage (m_msgFile L) (m_msgLine L) (m_msgLevel L)
                 (m_category L) (m_composer L)] /\
  m_tempCategory (commit (setTempCategory EmptyString L)) = EmptyString /\
  (m_tempCategory L = EmptyString ->
   setTempCategory EmptyString L = L /\
   commit (setTempCategory EmptyString L) = commit L /\
   forall (lvl : LOGLEVEL) (file : string) (line : Z) (chain : list operand),
     LOG lvl file line (put_cat (msg_cat EmptyString) :: chain) L =
     LOG lvl file line chain L).
Proof.
  split; [now rewrite commit_eq|]. split; [now rewrite commit_eq|].
  intros Hnone.
  assert (Hsame : setTempCategory EmptyString L = L).
  { unfold setTempCategory. rewrite <- Hnone. symmetry. apply Logger_eta. }
  split; [exact Hsame|]. split; [now rewrite Hsame|].
  intros lvl file line chain.
  destruct (gate lvl L) eqn:Hgate.
  - rewrite !LOG_open by exact Hgate. cbn [chain_category m_cat msg_cat].
    now rewrite Hnone.
  - now rewrite !LOG_closed.
Qed.

(** What [Logger::setCategory] and the macro [LOG_CATEGORY] do as they are
    written.  [setCategory] replaces the thread's persistent category, which
    then stays across any sequence of [LOG] statements and is the category
    of every message of a sequence that applies no override.  The macro
    calls [setCategory] only if its test of the build-time minimum against
    the run-time threshold holds. *)
Theorem persistent_category_stands (cat : string) (L : Logger) :
  m_category (setCategory cat L) = cat /\
  (FALCON_MIN_LOG_LEVEL >= level L ->
   LOG_CATEGORY cat L = setCategory cat L) /\
  (FALCON_MIN_LOG_LEVEL < level L -> LOG_CATEGORY cat L = L) /\
  forall prog : list statement,
    m_category (run_statements prog (setCategory cat L)) = cat /\
    (m_tempCategory L = EmptyString ->
     Forall (fun s => overrides (st_chain s) = []) prog ->
     exists news : list Message,
       dispatched (run_statements prog (setCategory cat L)) =
         dispatched L ++ news /\
       Forall (fun m => msg_category m = cat) news).
Proof.
  split; [reflexivity|]. unfold LOG_CATEGORY. split; [|split].
  - intros Hge. apply Z.ge_le, Z.geb_le in Hge. now rewrite Hge.
  - intros Hlt. destruct (FALCON_MIN_LOG_LEVEL >=? level L) eqn:E.
    + apply Z.geb_le in E. lia.
    + reflexivity.
  - intros prog. split.
    + now rewrite run_statements_m_category.
    + intros Hnone Hprog.
      apply (run_statements_categories prog (setCategory cat L));
        assumption.
Qed.

(** C3.  The first [complete()] on an open block guard commits and nulls the
    guard's pointer; a second [complete()] then calls [commit] through the
    null pointer, which is undefined behaviour, neither a no-op nor a usage
    error.  Indeed two calls in a row are undefined for every guard, since a
    closed one goes wrong at the first call already. *)
Theorem complete_twice_is_undefined (b : BlockEnd) (L : Logger) :
  BlockEnd_complete (mkBlockEnd instance) L =
    Returns (mkBlockEnd nullptr) (commit L) /\
  BlockEnd_complete (mkBlockEnd nullptr) (commit L) = Undefined /\
  bind (BlockEnd_complete b) BlockEnd_complete L = Undefined.
Proof.
  repeat split. destruct b as [[|]]; reflexivity.
Qed.

(** C6.  When the gate is open and the body of a [LOG_BLOCK] throws, the
    exception leaves the block with the logger exactly as the body left it:
    [complete()] is not reached and the block commits nothing.  For a body
    that only composes its message through [LOGGER], the list of dispatched
    messages is therefore the one from before the block. *)
Theorem block_abort_commits_nothing (fuel : nat) (lvl : LOGLEVEL)
        (file : string) (line : Z) (body : M unit) (L L' : Logger) :
  gate lvl L = true ->
  body (snd (BlockEnd_ctor file line lvl L)) = Throws L' ->
  LOG_BLOCK (S fuel) lvl file line body L = Throws L' /\
  (forall stmts : list body_stmt,
      body = run_body stmts -> dispatched L' = dispatched L).
Proof.
  intros Hgate Hthrow. unfold BlockEnd_ctor in Hthrow.
  rewrite Hgate in Hthrow. cbn [snd] in Hthrow. split.
  - rewrite LOG_BLOCK_open by exact Hgate. unfold bind at 1.
    now rewrite Hthrow.
  - intros stmts ->.
    pose proof (run_body_dispatched stmts
                  (setLevel lvl (setLine line (setFile file L)))) as Hd.
    rewrite Hthrow in Hd. exact Hd.
Qed.

(** C8.  If the gate is closed, a [LOG_BLOCK] ends without entering its body
    and leaves the logger unchanged, whatever the body is.  If the gate is
    open and the body runs to its end, the body is entered exactly once,
    [complete()] then commits exactly one message, built from the state the
    body left, and the guard is no longer open, which ends the loop. *)
Theorem LOG_BLOCK_runs_body_once (lvl : LOGLEVEL) (file : string) (line : Z)
        (body : M unit) (L : Logger) :
  (gate lvl L = false ->
   forall fuel : nat,
     LOG_BLOCK (S fuel) lvl file line body L =
     Returns (mkBlockEnd nullptr, 0%nat) L) /\
  (gate lvl L = true ->
   forall L2 : Logger,
     body (setLevel lvl (setLine line (setFile file L))) = Returns tt L2 ->
     forall fuel : nat,
       LOG_BLOCK (S (S fuel)) lvl file line body L =
         Returns (mkBlockEnd nullptr, 1%nat) (commit L2) /\
       BlockEnd_bool (mkBlockEnd nullptr) = false /\
       dispatched (commit L2) =
         dispatched L2 ++
           [mkMessage (m_msgFile L2) (m_msgLine L2) (m_msgLevel L2)
                      (effective_category L2) (m_composer L2)]).
Proof.
  split.
  - intros Hgate fuel. unfold LOG_BLOCK, BlockEnd_ctor. rewrite Hgate.
    cbn [for_loop]. now rewrite Hgate.
  - intros Hgate L2 Hbody fuel. split; [|split].
    + rewrite LOG_BLOCK_open by exact Hgate. unfold bind at 1.
      rewrite Hbody. unfold bind, BlockEnd_complete. cbn [be_obj for_loop].
      unfold BlockEnd_bool. cbn [be_obj is_set].
      now rewrite andb_false_r.
    + reflexivity.
    + now rewrite commit_eq.
Qed.

(** ** Further lemmas on chains, bodies and sequences *)

Lemma chain_text_app (c1 c2 : list operand) :
  chain_text (c1 ++ c2) = (chain_text c1 ++ chain_text c2)%string.
Proof.
  induction c1 as [|o c1 IH]; [reflexivity|].
  destruct o as [T HT v | cat]; cbn [app chain_text].
  - now rewrite IH, append_assoc.
  - exact IH.
Qed.

Lemma chain_category_app (pending : string) (c1 c2 : list operand) :
  chain_category pending (c1 ++ c2) =
  chain_category (chain_category pending c1) c2.
Proof.
  revert pending. induction c1 as [|o c1 IH]; intros pending; [reflexivity|].
  destruct o as [T HT v | cat]; cbn [app chain_category]; apply IH.
Qed.

Lemma run_body_of_chain (chain : list operand) (rest : list body_stmt)
      (L : Logger) :
  run_body (body_of_chain chain ++ rest) L =
  run_body rest
           (fold_left (shl_operand (mkAutoEnd instance EmptyString)) chain L).
Proof.
  revert L. induction chain as [|o chain IH]; intros L; [reflexivity|].
  destruct o as [T HT v | cat]; cbn [body_of_chain map app run_body
                                     body_of_operand fold_left];
    apply IH.
Qed.

Lemma LOG_open_chosen (lvl : LOGLEVEL) (file : string) (line : Z)
      (chain : list operand) (L : Logger) :
  gate lvl L = true ->
  LOG lvl file line chain L =
  mkLogger (level L)
           (dispatched L ++
              [mkMessage file line lvl
                 (chosen_category (m_category L) (m_tempCategory L) chain)
                 (m_composer L ++ chain_text chain)%string])
           EmptyString (m_category L) EmptyString file line lvl.
Proof.
  intros Hgate. now rewrite LOG_open.
Qed.

Lemma LOG_level (lvl : LOGLEVEL) (file : string) (line : Z)
      (chain : list operand) (L : Logger) :
  level (LOG lvl file line chain L) = level L.
Proof.
  destruct (gate lvl L) eqn:Hgate.
  - now rewrite LOG_open.
  - now rewrite LOG_closed.
Qed.

Lemma LOG_idle (lvl : LOGLEVEL) (file : string) (line : Z)
      (chain : list operand) (L : Logger) :
  idle L -> idle (LOG lvl file line chain L).
Proof.
  intros Hidle. destruct (gate lvl L) eqn:Hgate.
  - rewrite LOG_open by exact Hgate. now split.
  - now rewrite LOG_closed.
Qed.

Lemma open_statements_level (prog : list statement) (L L' : Logger) :
  level L' = level L -> open_statements prog L' = open_statements prog L.
Proof.
  intros Hlevel. unfold open_statements, gate. now rewrite Hlevel.
Qed.

(** ** Further properties *)

(** X1.  A statement or block whose level lies above the build-time minimum
    does nothing, whatever the run-time threshold is: the [LOG] statement
    returns the logger unchanged and the [LOG_BLOCK] never enters its
    body. *)
Theorem below_build_floor_is_silent (lvl : LOGLEVEL) (file : string)
        (line : Z) (L : Logger) :
  FALCON_MIN_LOG_LEVEL < lvl ->
  (forall chain : list operand, LOG lvl file line chain L = L) /\
  (forall (body : M unit) (fuel : nat),
      LOG_BLOCK (S fuel) lvl file line body L =
      Returns (mkBlockEnd nullptr, 0%nat) L).
Proof.
  intros Hlt.
  assert (Hgate : gate lvl L = false).
  { unfold gate. apply andb_false_iff. left.
    destruct (FALCON_MIN_LOG_LEVEL >=? lvl) eqn:E; [|reflexivity].
    apply Z.geb_le in E. lia. }
  split.
  - intros chain. now apply LOG_closed.
  - intros body fuel. unfold LOG_BLOCK, BlockEnd_ctor. rewrite Hgate.
    cbn [for_loop]. now rewrite Hgate.
Qed.

(** X2.  Gating is monotone in the level: when the guard of a statement at
    level [lvl] is open, the guard of a statement or block at any level
    [lvl' <= lvl] built on the same logger is open as well. *)
Theorem open_guard_is_monotone (lvl lvl' : LOGLEVEL) (file file' : string)
        (line line' : Z) (L : Logger) :
  lvl' <= lvl ->
  doLog (fst (AutoEnd_ctor file line lvl L)) = true ->
  doLog (fst (AutoEnd_ctor file' line' lvl' L)) = true /\
  BlockEnd_bool (fst (BlockEnd_ctor file' line' lvl' L)) = true.
Proof.
  intros Hle Hopen.
  assert (Hgate : gate lvl L = true).
  { unfold AutoEnd_ctor in Hopen.
    destruct (gate lvl L); [reflexivity | discriminate Hopen]. }
  assert (Hgate' : gate lvl' L = true).
  { apply gate_spec in Hgate. apply gate_spec. lia. }
  unfold AutoEnd_ctor, BlockEnd_ctor. rewrite Hgate'. now split.
Qed.

(** X3.  A [LOG_BLOCK] whose body streams through [LOGGER] what a [LOG]
    statement streams through its guard leaves the logger exactly as that
    statement does; its body is entered once when the gate is open and not
    at all when it is closed. *)
Theorem block_equals_statement (fuel : nat) (lvl : LOGLEVEL)
        (file : string) (line : Z) (chain : list operand) (L : Logger) :
  LOG_BLOCK (S (S fuel)) lvl file line (run_body (body_of_chain chain)) L =
  Returns (mkBlockEnd nullptr, if gate lvl L then 1%nat else 0%nat)
          (LOG lvl file line chain L).
Proof.
  destruct (gate lvl L) eqn:Hgate.
  - rewrite LOG_BLOCK_open by exact Hgate. unfold bind at 1.
    rewrite <- (app_nil_r (body_of_chain chain)), run_body_of_chain.
    cbn [run_body]. unfold bind, BlockEnd_complete. cbn [be_obj for_loop].
    unfold BlockEnd_bool. cbn [be_obj is_set]. rewrite andb_false_r.
    unfold LOG, AutoEnd_ctor. rewrite Hgate. reflexivity.
  - rewrite LOG_closed by exact Hgate.
    unfold LOG_BLOCK, BlockEnd_ctor. rewrite Hgate.
    cbn [for_loop]. now rewrite Hgate.
Qed.

(** X4.  When the body of an open [LOG_BLOCK] streams a chain through
    [LOGGER] and then throws, what it streamed stays behind: the next open
    [LOG] statement on the thread dispatches the very message that it would
    dispatch if the operands of the block came first in its own chain. *)
Theorem aborted_block_leaks_into_next_statement
        (fuel : nat) (lvl lvl2 : LOGLEVEL) (file file2 : string)
        (line line2 : Z) (chain1 chain2 : list operand) (L : Logger) :
  gate lvl L = true ->
  gate lvl2 L = true ->
  exists L1 : Logger,
    LOG_BLOCK (S fuel) lvl file line
              (run_body (body_of_chain chain1 ++ [b_throw])) L = Throws L1 /\
    dispatched L1 = dispatched L /\
    LOG lvl2 file2 line2 chain2 L1 =
    LOG lvl2 file2 line2 (chain1 ++ chain2) L.
Proof.
  intros Hgate Hgate2.
  rewrite LOG_BLOCK_open by exact Hgate. unfold bind at 1.
  rewrite run_body_of_chain. cbn [run_body].
  rewrite chain_open by reflexivity. cbn.
  eexists. split; [reflexivity|]. split; [reflexivity|].
  rewrite !LOG_open by exact Hgate2. cbn.
  now rewrite chain_text_app, chain_category_app, append_assoc.
Qed.

(** X5.  On an idle thread a sequence of [LOG] statements dispatches, in
    program order, one message for each statement whose guard is open and
    none for the others; each message has the file, line and level of its
    statement and the text of its own chain, and it is filed under the
    override that its own chain applied last if that one is not empty, and
    under the persistent category otherwise.  The thread is idle again
    afterwards. *)
Theorem statements_dispatch_in_order (prog : list statement) (L : Logger) :
  idle L ->
  dispatched (run_statements prog L) =
    dispatched L ++ map (message_of (m_category L)) (open_statements prog L)
  /\ idle (run_statements prog L).
Proof.
  revert L. induction prog as [|s prog IH]; intros L Hidle.
  - cbn. now rewrite app_nil_r.
  - unfold run_statements. cbn [fold_left].
    fold (run_statements prog
            (LOG (st_level s) (st_file s) (st_line s) (st_chain s) L)).
    destruct (IH (LOG (st_level s) (st_file s) (st_line s) (st_chain s) L))
      as (Hd & Hi); [now apply LOG_idle|].
    split; [|exact Hi].
    rewrite Hd, LOG_m_category.
    rewrite (open_statements_level prog L) by apply LOG_level.
    unfold open_statements at 2. cbn [filter].
    fold (open_statements prog L).
    destruct (gate (st_level s) L) eqn:Hgate.
    + rewrite LOG_open_chosen by exact Hgate. cbn [dispatched map].
      destruct Hidle as (Hc & Ht). rewrite Hc, Ht.
      rewrite <- app_assoc. reflexivity.
    + now rewrite LOG_closed.
Qed.

(** X6.  Whatever the state of the thread, a sequence of [LOG] statements
    only appends to the list of dispatched messages, exactly one message
    for each statement whose guard is open, and changes neither the
    run-time threshold nor the persistent category. *)
Theorem statements_only_append (prog : list statement) (L : Logger) :
  exists news : list Message,
    dispatched (run_statements prog L) = dispatched L ++ news /\
    length news = length (open_statements prog L) /\
    level (run_statements prog L) = level L /\
    m_category (run_statements prog L) = m_category L.
Proof.
  revert L. induction prog as [|s prog IH]; intros L.
  - exists []. cbn. now rewrite app_nil_r.
  - unfold run_statements. cbn [fold_left].
    fold (run_statements prog
            (LOG (st_level s) (st_file s) (st_line s) (st_chain s) L)).
    destruct (IH (LOG (st_level s) (st_file s) (st_line s) (st_chain s) L))
      as (news & Hd & Hn & Hl & Hc).
    rewrite Hd, Hl, Hc, LOG_level, LOG_m_category.
    rewrite (open_statements_level prog L) in Hn by apply LOG_level.
    unfold open_statements at 1. cbn [filter].
    fold (open_statements prog L).
    destruct (gate (st_level s) L) eqn:Hgate.
    + rewrite LOG_open by exact Hgate. cbn [dispatched].
      rewrite <- app_assoc. eexists. split; [reflexivity|].
      cbn [app length]. now rewrite Hn.
    + rewrite LOG_closed by exact Hgate. exists news. now rewrite Hn.
Qed.

(** X8.  Two [LOG_CATEGORY] in a row amount to the second one alone, in
    every build and at every threshold; when the build-time minimum is at
    least the run-time threshold, [getCategory] then returns the category
    given last. *)
Theorem LOG_CATEGORY_last_wins (a b : string) (L : Logger) :
  LOG_CATEGORY b (LOG_CATEGORY a L) = LOG_CATEGORY b L /\
  (FALCON_MIN_LOG_LEVEL >= level L ->
   getCategory (LOG_CATEGORY b (LOG_CATEGORY a L)) = b).
Proof.
  unfold LOG_CATEGORY.
  destruct (FALCON_MIN_LOG_LEVEL >=? level L) eqn:E.
  - cbn [setCategory level]. rewrite E. split; reflexivity.
  - rewrite E. split; [reflexivity|].
    intros Hge. apply Z.ge_le, Z.geb_le in Hge. congruence.
Qed.

(** X9.  When a whole [LOG] statement runs while a named guard is open, and
    both pass the gate, the inner statement's message takes everything
    streamed through the outer guard so far, text and override, and the
    outer guard's own message, which holds only what was streamed after the
    inner statement, is filed under the inner statement's file, line and
    level. *)
Theorem interleaved_statement_takes_over
        (lvl : LOGLEVEL) (file : string) (line : Z)
        (before after : list operand) (inner : statement) (L : Logger) :
  gate lvl L = true ->
  gate (st_level inner) L = true ->
  dispatched (interleaved lvl file line before inner after L) =
  dispatched L ++
    [mkMessage (st_file inner) (st_line inner) (st_level inner)
       (chosen_category (m_category L) (m_tempCategory L)
                        (before ++ st_chain inner))
       (m_composer L ++ chain_text (before ++ st_chain inner))%string;
     mkMessage (st_file inner) (st_line inner) (st_level inner)
       (chosen_category (m_category L) EmptyString after)
       (chain_text after)].
Proof.
  intros Hgate Hinner. unfold interleaved, AutoEnd_ctor. rewrite Hgate.
  rewrite (chain_open _ before) by reflexivity. cbn.
  rewrite LOG_open_chosen by exact Hinner.
  rewrite chain_open by reflexivity. cbn.
  unfold AutoEnd_dtor. cbn [ae_obj is_set]. rewrite commit_eq. cbn.
  unfold chosen_category, effective_category. cbn.
  now rewrite chain_text_app, chain_category_app, append_assoc,
    <- app_assoc.
Qed.

(** X10.  Inside an open [LOG_BLOCK], a body that first sets the persistent
    category and then streams a chain leaves the logger as the [LOG]
    statement with that chain does after [setCategory]: the new category
    already applies to the block's own message. *)
Theorem category_set_in_block_applies_to_it
        (fuel : nat) (lvl : LOGLEVEL) (file : string) (line : Z)
        (cat : string) (chain : list operand) (L : Logger) :
  gate lvl L = true ->
  LOG_BLOCK (S (S fuel)) lvl file line
            (run_body (b_setCategory cat :: body_of_chain chain)) L =
  Returns (mkBlockEnd nullptr, 1%nat)
          (LOG lvl file line chain (setCategory cat L)).
Proof.
  intros Hgate. rewrite LOG_BLOCK_open by exact Hgate. unfold bind at 1.
  cbn [run_body].
  rewrite <- (app_nil_r (body_of_chain chain)), run_body_of_chain.
  cbn [run_body]. unfold bind, BlockEnd_complete. cbn [be_obj for_loop].
  unfold BlockEnd_bool. cbn [be_obj is_set]. rewrite andb_false_r.
  unfold LOG, AutoEnd_ctor.
  replace (gate lvl (setCategory cat L)) with true
    by (symmetry; exact Hgate).
  reflexivity.
Qed.

(** X11.  An open [LOG] statement that streams no value at all, only
    category manipulators or nothing, still dispatches one message: its
    text is what the composer held before, which is the empty text on an
    idle thread. *)
Theorem statement_without_values_still_commits
        (lvl : LOGLEVEL) (file : string) (line : Z)
        (cats : list category_manipulator) (L : Logger) :
  gate lvl L = true ->
  dispatched (LOG lvl file line (map put_cat cats) L) =
  dispatched L ++
    [mkMessage file line lvl
       (chosen_category (m_category L) (m_tempCategory L)
                        (map put_cat cats))
       (m_composer L)].
Proof.
  intros Hgate. rewrite LOG_open_chosen by exact Hgate. cbn [dispatched].
  assert (Htext : chain_text (map put_cat cats) = EmptyString).
  { clear. induction cats as [|c cats IH]; [reflexivity | exact IH]. }
  now rewrite Htext, append_nil_r.
Qed.

(** ** Blocks whose body may jump or use the guard *)

Lemma for_statement_plain (fuel : nat) (lvl : LOGLEVEL) (b : M unit)
      (e : BlockEnd) (n : nat) (L : Logger) :
  for_statement fuel (fun e' L' => gate lvl L' && BlockEnd_bool e')
                (plain_body b) BlockEnd_complete e n L =
  for_loop fuel (fun e' L' => gate lvl L' && BlockEnd_bool e')
           b BlockEnd_complete e n L.
Proof.
  revert e n L. induction fuel as [|fuel IH]; intros e n L; [reflexivity|].
  cbn [for_statement for_loop].
  destruct (gate lvl L && BlockEnd_bool e); [|reflexivity].
  unfold plain_body, bind, ret.
  destruct (b L) as [[] L1 | L1 | | ]; try reflexivity.
  destruct (BlockEnd_complete e L1) as [e2 L2 | L2 | | ]; try reflexivity.
  exact (IH e2 (S n) L2).
Qed.

(** For bodies that leave the guard alone and do not jump, the general
    block is the block of the plain [for] statement. *)
Lemma LOG_BLOCK_any_plain (fuel : nat) (lvl : LOGLEVEL) (file : string)
      (line : Z) (b : M unit) (L : Logger) :
  LOG_BLOCK_any fuel lvl file line (plain_body b) L =
  LOG_BLOCK fuel lvl file line b L.
Proof.
  unfold LOG_BLOCK_any, LOG_BLOCK.
  destruct (BlockEnd_ctor file line lvl L) as [ender L1].
  apply for_statement_plain.
Qed.




End BuildTime.

(** * Concrete runs *)

Local Open Scope string_scope.

(** C1, default build: [LOG_INFO] is open on a fresh thread, and the guard
    of [LOG_DBG] is closed once the run-time level is INFO. *)
Lemma AutoEnd_open_iff_witness :
  doLog (fst (AutoEnd_ctor LLTRACE "main.cpp" 42 LLINFO fresh)) = true /\
  doLog (fst (AutoEnd_ctor LLTRACE "main.cpp" 43 LLDEBUG
                           (set_level LLINFO fresh))) = false.
Proof.
  split.
  - apply (proj1 (AutoEnd_open_iff LLTRACE LLINFO "main.cpp" 42 fresh)).
    split; vm_compute; discriminate.
  - apply (proj2 (AutoEnd_open_iff LLTRACE LLDEBUG "main.cpp" 43
                                   (set_level LLINFO fresh))).
    right. reflexivity.
Defined.

(** C7, build-time minimum WARN: a [LOG_INFO] statement changes nothing. *)
Lemma closed_statement_is_noop_witness :
  gate LLWARN LLINFO fresh = false /\
  LOG LLWARN LLINFO "main.cpp" 42 [put "x"; put 7] fresh = fresh.
Proof.
  split; [reflexivity|].
  apply (closed_statement_is_noop LLWARN LLINFO "main.cpp" 42 fresh).
  reflexivity.
Defined.

(** C4, the header's own example
    [LOG(falcon::LLINFO) << "The magic number is " << number << "."]. *)
Lemma open_statement_commits_once_witness :
  gate LLTRACE LLINFO fresh = true /\
  exists m : Message,
    dispatched (LOG LLTRACE LLINFO "main.cpp" 42
                    [put "The magic number is "; put 42; put "."] fresh) =
      (dispatched fresh ++ [m])%list /\
    msg_file m = "main.cpp" /\ msg_line m = 42 /\ msg_level m = LLINFO /\
    msg_text m =
      m_composer fresh ++
      chain_text [put "The magic number is "; put 42; put "."] /\
    (m_composer fresh = "" ->
     msg_text m = chain_text [put "The magic number is "; put 42; put "."]) /\
    m_composer (LOG LLTRACE LLINFO "main.cpp" 42
                    [put "The magic number is "; put 42; put "."] fresh) = "".
Proof.
  split; [reflexivity|].
  apply (open_statement_commits_once LLTRACE LLINFO "main.cpp" 42
           [put "The magic number is "; put 42; put "."] fresh).
  reflexivity.
Defined.

(** C4, counterexample.  A block on a fresh thread streams [partial] and
    throws, which leaves the thread in [stale]; the statement that follows
    appends [a], [b] and [c], and its one message reads [partialabc]. *)
Lemma stale_text_is_committed :
  LOG_BLOCK LLTRACE 2 LLINFO "net.cpp" 10
            (run_body [b_shl "partial"; b_throw]) fresh = Throws stale /\
  gate LLTRACE LLINFO stale = true /\
  chain_text [put "a"; put "b"; put "c"] = "abc" /\
  map msg_text
      (dispatched (LOG LLTRACE LLINFO "net.cpp" 20
                       [put "a"; put "b"; put "c"] stale)) =
    ["partialabc"] /\
  map msg_text
      (dispatched (LOG LLTRACE LLINFO "net.cpp" 20
                       [put "a"; put "b"; put "c"] stale)) <>
    [chain_text [put "a"; put "b"; put "c"]].
Proof.
  repeat split; try reflexivity.
  vm_compute. intros E. discriminate E.
Qed.

(** C2: two manipulators in one statement, then a value. *)
Lemma last_override_wins_witness :
  gate LLTRACE LLINFO fresh = true /\
  overrides [put_cat (msg_cat "B"); put_cat (msg_cat "C"); put "x"] <> [] /\
  dispatched (LOG LLTRACE LLINFO "main.cpp" 7
                  [put_cat (msg_cat "B"); put_cat (msg_cat "C"); put "x"]
                  fresh) =
  [mkMessage "main.cpp" 7 LLINFO "C" "x"].
Proof.
  split; [reflexivity|]. split; [discriminate|].
  refine (last_override_wins LLTRACE LLINFO "main.cpp" 7
            [put_cat (msg_cat "B"); put_cat (msg_cat "C"); put "x"] fresh
            _ _).
  - reflexivity.
  - discriminate.
Defined.

(** C2, counterexample.  The statement applies the manipulators for [B] and
    for [C], in this order; its message is dispatched under [C], not under
    the first one. *)
Lemma first_override_is_replaced :
  gate LLTRACE LLINFO fresh = true /\
  overrides [put_cat (msg_cat "B"); put_cat (msg_cat "C"); put "x"] =
    ["B"; "C"] /\
  map msg_category
      (dispatched (LOG LLTRACE LLINFO "main.cpp" 7
                       [put_cat (msg_cat "B"); put_cat (msg_cat "C"); put "x"]
                       fresh)) = ["C"] /\
  map msg_category
      (dispatched (LOG LLTRACE LLINFO "main.cpp" 7
                       [put_cat (msg_cat "B"); put_cat (msg_cat "C"); put "x"]
                       fresh)) <> ["B"].
Proof.
  repeat split; try reflexivity.
  vm_compute. intros E. discriminate E.
Qed.

(** C5, the header's example with the categories [Default] and [EXEC]. *)
Lemma temporary_override_lasts_one_commit_witness :
  dispatched
    (LOG LLTRACE LLINFO "main.cpp" 227
         [put "A message in the Default category"]
         (LOG LLTRACE LLTRACE "main.cpp" 225
              [put_cat (msg_cat "EXEC");
               put "A trace message in the EXEC category"]
              (setCategory "Default" fresh))) =
  [mkMessage "main.cpp" 225 LLTRACE "EXEC"
             "A trace message in the EXEC category";
   mkMessage "main.cpp" 227 LLINFO "Default"
             "A message in the Default category"].
Proof.
  refine (proj2 (temporary_override_lasts_one_commit LLTRACE
            "Default" "EXEC" LLTRACE LLINFO "main.cpp" "main.cpp" 225 227
            [put_cat (msg_cat "EXEC");
             put "A trace message in the EXEC category"]
            [put "A message in the Default category"]
            (setCategory "Default" fresh) _ _ _ _ _ _));
    reflexivity.
Defined.

(** C10 on a fresh thread with the persistent category [Net]. *)
Lemma empty_override_is_no_override_witness :
  m_tempCategory (setCategory "Net" fresh) = "" /\
  LOG LLTRACE LLINFO "net.cpp" 3
      [put_cat (msg_cat ""); put "connected"] (setCategory "Net" fresh) =
  LOG LLTRACE LLINFO "net.cpp" 3 [put "connected"] (setCategory "Net" fresh).
Proof.
  split; [reflexivity|].
  apply (proj2 (proj2 (empty_override_is_no_override
                         LLTRACE (setCategory "Net" fresh)))).
  reflexivity.
Defined.

(** Default build: after [LOG_CATEGORY("Net")] two statements are dispatched
    under [Net]. *)
Lemma persistent_category_stands_witness :
  LOG_CATEGORY LLTRACE "Net" fresh = setCategory "Net" fresh /\
  exists news : list Message,
    dispatched
      (run_statements LLTRACE
         [mkStatement LLINFO "net.cpp" 3 [put "connected"];
          mkStatement LLWARN "net.cpp" 9 [put "retry "; put 2]]
         (setCategory "Net" fresh)) = (dispatched fresh ++ news)%list /\
    Forall (fun m => msg_category m = "Net") news.
Proof.
  destruct (persistent_category_stands LLTRACE "Net" fresh)
    as (_ & Hmacro & _ & Hprog).
  split.
  - apply Hmacro. vm_compute. discriminate.
  - apply (proj2 (Hprog [mkStatement LLINFO "net.cpp" 3 [put "connected"];
                         mkStatement LLWARN "net.cpp" 9
                                     [put "retry "; put 2]])).
    + reflexivity.
    + repeat constructor.
Defined.

(** C9.  The program is built with the minimum WARN and runs with the
    default threshold TRACE.  [LOG_CATEGORY("Net")] leaves the persistent
    category as it was, because the test in the macro fails, and the
    [LOG_WARN] that follows, whose guard is open, is dispatched under the
    old, empty category and not under [Net]. *)
Lemma LOG_CATEGORY_skipped :
  LOG_CATEGORY LLWARN "Net" fresh = fresh /\
  m_category (LOG_CATEGORY LLWARN "Net" fresh) <> "Net" /\
  gate LLWARN LLWARN (LOG_CATEGORY LLWARN "Net" fresh) = true /\
  map msg_category
      (dispatched (LOG LLWARN LLWARN "net.cpp" 5 [put "connected"]
                       (LOG_CATEGORY LLWARN "Net" fresh))) = [""].
Proof.
  repeat split; try reflexivity.
  vm_compute. intros E. discriminate E.
Qed.

(** C6: the block that leaves [stale] behind dispatches nothing. *)
Lemma block_abort_commits_nothing_witness :
  LOG_BLOCK LLTRACE 2 LLINFO "net.cpp" 10
            (run_body [b_shl "partial"; b_throw]) fresh = Throws stale /\
  dispatched stale = dispatched fresh.
Proof.
  destruct (block_abort_commits_nothing LLTRACE 1 LLINFO "net.cpp" 10
              (run_body [b_shl "partial"; b_throw]) fresh stale
              eq_refl eq_refl) as (Hthrows & Hsame).
  split.
  - exact Hthrows.
  - exact (Hsame [b_shl "partial"; b_throw] eq_refl).
Defined.

(** C8: the block of the header's documentation, once with the build-time
    minimum WARN, which closes it, and once with the default build. *)
Lemma LOG_BLOCK_runs_body_once_witness :
  LOG_BLOCK LLWARN 1 LLINFO "main.cpp" 131
            (run_body [b_shl "Hello 3 times: "; b_shl "Hello "; b_shl 1;
                       b_shl ";"; b_shl " done"]) fresh =
    Returns (mkBlockEnd nullptr, 0%nat) fresh /\
  LOG_BLOCK LLTRACE 2 LLINFO "main.cpp" 131
            (run_body [b_shl "Hello 3 times: "; b_shl "Hello "; b_shl 1;
                       b_shl ";"; b_shl " done"]) fresh =
    Returns (mkBlockEnd nullptr, 1%nat)
            (mkLogger LLTRACE
               [mkMessage "main.cpp" 131 LLINFO ""
                          "Hello 3 times: Hello 1; done"]
               "" "" "" "main.cpp" 131 LLINFO).
Proof.
  split.
  - refine (proj1 (LOG_BLOCK_runs_body_once LLWARN LLINFO "main.cpp" 131
                     _ fresh) eq_refl 0%nat).
  - refine (proj1 (proj2 (LOG_BLOCK_runs_body_once LLTRACE LLINFO
                            "main.cpp" 131 _ fresh)
                         eq_refl _ eq_refl 0%nat)).
Defined.

(** * Further concrete runs *)

(** X1 in a build with [FALCON_MIN_LOG_LEVEL] set to [LLDISABLE]. *)
Lemma below_build_floor_is_silent_witness :
  LLDISABLE < LLCRIT /\
  LOG LLDISABLE LLCRIT "main.cpp" 1 [put "fatal"] fresh = fresh.
Proof.
  split; [reflexivity|].
  apply (proj1 (below_build_floor_is_silent LLDISABLE LLCRIT "main.cpp" 1
                  fresh eq_refl)).
Defined.

(** X2: [LOG_INFO] is open on a fresh thread, so [LOG_WARN] is. *)
Lemma open_guard_is_monotone_witness :
  doLog (fst (AutoEnd_ctor LLTRACE "b.cpp" 2 LLWARN fresh)) = true /\
  BlockEnd_bool (fst (BlockEnd_ctor LLTRACE "b.cpp" 2 LLWARN fresh)) = true.
Proof.
  refine (open_guard_is_monotone LLTRACE LLINFO LLWARN "a.cpp" "b.cpp" 1 2
            fresh _ eq_refl).
  vm_compute. discriminate.
Defined.

(** X4: the block that leaves [stale] behind, and the statement after it. *)
Lemma aborted_block_leaks_into_next_statement_witness :
  exists L1 : Logger,
    LOG_BLOCK LLTRACE 1 LLINFO "net.cpp" 10
              (run_body (body_of_chain [put "partial"] ++ [b_throw])) fresh =
      Throws L1 /\
    dispatched L1 = dispatched fresh /\
    LOG LLTRACE LLWARN "net.cpp" 20 [put "a"] L1 =
    LOG LLTRACE LLWARN "net.cpp" 20 ([put "partial"] ++ [put "a"]) fresh.
Proof.
  exact (aborted_block_leaks_into_next_statement LLTRACE 0 LLINFO LLWARN
           "net.cpp" "net.cpp" 10 20 [put "partial"] [put "a"] fresh
           eq_refl eq_refl).
Defined.

(** X5 in a build with the minimum INFO: the DEBUG statement in the middle
    dispatches nothing, and its manipulator does not reach the statement
    after it. *)
Lemma statements_dispatch_in_order_witness :
  idle (setCategory "Net" fresh) /\
  dispatched
    (run_statements LLINFO
       [mkStatement LLINFO "net.cpp" 3 [put "connected"];
        mkStatement LLDEBUG "net.cpp" 4 [put_cat (msg_cat "Dump"); put 17];
        mkStatement LLWARN "net.cpp" 9
                    [put_cat (msg_cat "Net::Retry"); put "retry "; put 2];
        mkStatement LLERR "net.cpp" 12 [put "gave up"]]
       (setCategory "Net" fresh)) =
  [mkMessage "net.cpp" 3 LLINFO "Net" "connected";
   mkMessage "net.cpp" 9 LLWARN "Net::Retry" "retry 2";
   mkMessage "net.cpp" 12 LLERR "Net" "gave up"].
Proof.
  split; [now split|].
  refine (proj1 (statements_dispatch_in_order LLINFO _
                   (setCategory "Net" fresh) _)).
  now split.
Defined.

(** X8: the two [LOG_CATEGORY] of the header's example. *)
Lemma LOG_CATEGORY_last_wins_witness :
  getCategory (LOG_CATEGORY LLTRACE "Second part"
                 (LOG_CATEGORY LLTRACE "First part" fresh)) = "Second part".
Proof.
  refine (proj2 (LOG_CATEGORY_last_wins LLTRACE "First part" "Second part"
                   fresh) _).
  vm_compute. discriminate.
Defined.

(** X9: a guard at main.cpp:5 for INFO, a [LOG_ERR] at util.cpp:40 in
    between. *)
Lemma interleaved_statement_takes_over_witness :
  dispatched
    (interleaved LLTRACE LLINFO "main.cpp" 5
       [put "loading "]
       (mkStatement LLERR "util.cpp" 40 [put "bad header"])
       [put "done"] fresh) =
  [mkMessage "util.cpp" 40 LLERR "" "loading bad header";
   mkMessage "util.cpp" 40 LLERR "" "done"].
Proof.
  refine (interleaved_statement_takes_over LLTRACE LLINFO "main.cpp" 5
            [put "loading "] [put "done"]
            (mkStatement LLERR "util.cpp" 40 [put "bad header"]) fresh
            eq_refl eq_refl).
Defined.

(** X10: a block that files itself under [Net]. *)
Lemma category_set_in_block_applies_to_it_witness :
  LOG_BLOCK LLTRACE 2 LLINFO "net.cpp" 7
            (run_body (b_setCategory "Net" ::
                       body_of_chain [put "up after "; put 3])) fresh =
  Returns (mkBlockEnd nullptr, 1%nat)
          (mkLogger LLTRACE [mkMessage "net.cpp" 7 LLINFO "Net" "up after 3"]
                    "" "Net" "" "net.cpp" 7 LLINFO).
Proof.
  refine (category_set_in_block_applies_to_it LLTRACE 0 LLINFO "net.cpp" 7
            "Net" [put "up after "; put 3] fresh eq_refl).
Defined.

(** X11: the statement [LOG_INFO;] on a fresh thread. *)
Lemma statement_without_values_still_commits_witness :
  dispatched (LOG LLTRACE LLINFO "main.cpp" 8 [] fresh) =
  [mkMessage "main.cpp" 8 LLINFO "" ""].
Proof.
  refine (statement_without_values_still_commits LLTRACE LLINFO
            "main.cpp" 8 [] fresh eq_refl).
Defined.

